(** * The [github:actions:dispatch] scaffolder action

    A shallow embedding of
    [plugins/scaffolder-backend/src/scaffolder/actions/builtin/github/githubActionsDispatch.ts]
    and the properties its specification states about it.

    The handler is effectful: it logs, resolves client options, builds a
    throttled Octokit client and awaits one REST call.  The embedding keeps
    the order of these effects in a chronological trace and the thrown error
    (a rejected promise) in the outcome. *)

From Stdlib Require Import String Ascii List ZArith Lia Bool.
Import ListNotations.

Local Open Scope string_scope.
Local Open Scope list_scope.

(* ================================================================== *)
(** * Values and errors *)

(** What the Octokit client throws: an HTTP error response, or a failure of
    the transport under it. *)
Inductive RemoteError : Type :=
| HttpError (status : Z) (message : string)
| TransportError (message : string).

(** What the handler's promise can reject with. *)
Inductive Error : Type :=
| InputError (message : string)   (* from '@backstage/errors' *)
| RequestError (e : RemoteError)  (* thrown by the client's request *)
| OtherError (message : string).  (* anything else a collaborator throws *)

(** JavaScript truthiness of a [string | undefined]: [undefined] and the
    empty string are falsy, so [!owner] is [negb (truthy owner)]. *)
Definition truthy (v : option string) : bool :=
  match v with
  | Some s => negb (s =? "")
  | None => false
  end.

(** [ctx.input], as the action's type parameter declares it. *)
Module Input.
Record t : Type := {
  repoUrl : string;
  workflowId : string;
  branchOrTagName : string;
  workflowInputs : option (list (string * string));
  token : option string
}.
End Input.

(** [ctx]: the input; [ctx.logger] is the trace of the [Action] monad. *)
Record Ctx : Type := { input : Input.t }.

(** The part of [parseRepoUrl]'s result the handler destructures. *)
Module Parsed.
Record t : Type := {
  owner : option string;
  repo : option string
}.
End Parsed.

(** The argument object of [getOctokitOptions]. *)
Module OctokitArgs.
Record t (I P : Type) : Type := {
  integrations : I;
  repoUrl : string;
  credentialsProvider : option P;
  token : option string
}.
Arguments integrations {I P} _.
Arguments repoUrl {I P} _.
Arguments credentialsProvider {I P} _.
Arguments token {I P} _.
End OctokitArgs.

(** The argument object of [client.rest.actions.createWorkflowDispatch]. *)
Module Dispatch.
Record t : Type := {
  owner : option string;
  repo : option string;
  workflow_id : string;
  ref : string;
  inputs : option (list (string * string))
}.
End Dispatch.

(** The [opts] argument of the throttle callbacks ([opts: any]); the
    callbacks read [opts.request.retryCount]. *)
Record RequestInfo : Type := { retryCount : Z }.
Record RequestOptions : Type := {
  method : string;
  url : string;
  request : RequestInfo
}.

(** The [throttle] option of '@octokit/plugin-throttling'. *)
Module Throttle.
Record t : Type := {
  onRateLimit : Z -> RequestOptions -> bool;
  onSecondaryRateLimit : Z -> RequestOptions -> bool;
  fallbackSecondaryRateRetryAfter : Z
}.
End Throttle.

(** The options object handed to [new ThrottledRetry(...)]: the spread of
    what [getOctokitOptions] resolved, then the [throttle] key (which, being
    written last, wins over any [throttle] in the spread). *)
Record ClientOptions (O : Type) : Type := {
  octokitOptions : O;
  throttle_of : Throttle.t
}.
Arguments octokitOptions {O} _.
Arguments throttle_of {O} _.

(** How the hosting provider answers one HTTP attempt. *)
Inductive Response : Type :=
| NoContent
| RateLimited (retryAfter : Z) (e : RemoteError)
| SecondaryRateLimited (retryAfter : option Z) (e : RemoteError)
| Failed (e : RemoteError).

(* ================================================================== *)
(** * Effects *)

(** What an observer of one invocation sees, in order. *)
Inductive Event (I P O : Type) : Type :=
| LogInfo (message : string)
| OptionsRequested (args : OctokitArgs.t I P)
| ClientCreated (opts : ClientOptions O)
| DispatchCalled (params : Dispatch.t)
| HttpAttempt (retryCount : nat)
| Waited (seconds : Z).
Arguments LogInfo {I P O} _.
Arguments OptionsRequested {I P O} _.
Arguments ClientCreated {I P O} _.
Arguments DispatchCalled {I P O} _.
Arguments HttpAttempt {I P O} _.
Arguments Waited {I P O} _.

(** How an awaited computation ends.  [OutOfFuel] is the embedding's own:
    the retry loop of the throttling plugin runs as long as the callbacks
    say so, and is explored up to a bound. *)
Inductive Outcome (A : Type) : Type :=
| Returned (a : A)
| Threw (e : Error)
| OutOfFuel.
Arguments Returned {A} _.
Arguments Threw {A} _.
Arguments OutOfFuel {A}.

(** A computation: the events it emitted, oldest first, and its outcome. *)
Definition Action (Ev A : Type) : Type := (list Ev * Outcome A)%type.

Definition ret {Ev A : Type} (a : A) : Action Ev A := ([], Returned a).

Definition bind {Ev A B : Type} (m : Action Ev A) (k : A -> Action Ev B)
  : Action Ev B :=
  match m with
  | (tr, Returned a) => let (tr', r) := k a in (tr ++ tr', r)
  | (tr, Threw e) => (tr, Threw e)
  | (tr, OutOfFuel) => (tr, OutOfFuel)
  end.

Definition emit {Ev : Type} (ev : Ev) : Action Ev unit := ([ev], Returned tt).

Definition throw {Ev A : Type} (e : Error) : Action Ev A := ([], Threw e).

Definition diverge {Ev A : Type} : Action Ev A := ([], OutOfFuel).

(** A call that returns or throws without an effect of its own. *)
Definition call {Ev A : Type} (r : Error + A) : Action Ev A :=
  match r with
  | inl e => throw e
  | inr a => ret a
  end.

Definition trace {Ev A : Type} (m : Action Ev A) : list Ev := fst m.
Definition outcome {Ev A : Type} (m : Action Ev A) : Outcome A := snd m.

Declare Scope action_scope.
Delimit Scope action_scope with action.
Notation "x <- m ;; k" := (bind m (fun x => k))
  (at level 61, m at next level, right associativity) : action_scope.
Notation "m ;; k" := (bind m (fun _ => k))
  (at level 61, right associativity) : action_scope.
Local Open Scope action_scope.

(* ================================================================== *)
(** * The throttle policy (source lines 110-120) *)

(** The [throttle] object literal of the handler. *)
Definition throttle : Throttle.t := {|
  Throttle.onRateLimit := fun (_ : Z) (opts : RequestOptions) =>
    (* retry three times *)
    (retryCount (request opts) <? 4)%Z;
  Throttle.onSecondaryRateLimit := fun (_ : Z) (opts : RequestOptions) =>
    (* retry three times *)
    (retryCount (request opts) <? 4)%Z;
  Throttle.fallbackSecondaryRateRetryAfter := 5%Z
|}.

(* ================================================================== *)
(** * The action *)

Section DispatchAction.

(** [ScmIntegrations], [GithubCredentialsProvider] and the options object
    [getOctokitOptions] resolves are declared outside this file. *)
Variables ScmIntegrations GithubCredentialsProvider OctokitOptions : Type.

(** [parseRepoUrl] from '../publish/util' and [getOctokitOptions] from
    './helpers'; both may throw. *)
Variable parseRepoUrl : string -> ScmIntegrations -> Error + Parsed.t.
Variable getOctokitOptions :
  OctokitArgs.t ScmIntegrations GithubCredentialsProvider -> Error + OctokitOptions.

(** The hosting provider: its answer to the k-th HTTP attempt (counted from
    1) of a request made with the given client options and parameters. *)
Variable remote : OctokitOptions -> nat -> Dispatch.t -> Response.

(** [options] of [createGithubActionsDispatchAction]. *)
Variable integrations : ScmIntegrations.
Variable githubCredentialsProvider : option GithubCredentialsProvider.

Definition Ev : Type :=
  Event ScmIntegrations GithubCredentialsProvider OctokitOptions.

(** [ctx.logger.info(message)]. *)
Definition logger_info (message : string) : Action Ev unit :=
  emit (LogInfo message).

(** [await getOctokitOptions(args)]: the call is observed, then returns or
    throws. *)
Definition resolveOptions
    (args : OctokitArgs.t ScmIntegrations GithubCredentialsProvider)
  : Action Ev OctokitOptions :=
  emit (OptionsRequested args) ;; call (getOctokitOptions args).

(** [new ThrottledRetry(opts)]. *)
Definition newThrottledRetry (opts : ClientOptions OctokitOptions)
  : Action Ev (ClientOptions OctokitOptions) :=
  emit (ClientCreated opts) ;; ret opts.

(** The request options the throttling plugin hands to the callbacks on the
    attempt that follows [n] retries. *)
Definition dispatchRequestOptions (n : nat) : RequestOptions := {|
  method := "POST";
  url := "/repos/{owner}/{repo}/actions/workflows/{workflow_id}/dispatches";
  request := {| retryCount := Z.of_nat n |}
|}.

(** Modelled from the spec: the wait before a retry after a secondary rate
    limit, computed inside '@octokit/plugin-throttling' (a third-party
    package, not among the sources).  Spec 4.1 step 5: "Secondary rate
    limits additionally fall back to a 5-second wait when the provider does
    not supply a suggested wait time"; the 5 is the policy's
    [fallbackSecondaryRateRetryAfter]. *)
Definition secondaryRetryAfter (policy : Throttle.t) (suggested : option Z) : Z :=
  match suggested with
  | Some s => s
  | None => Throttle.fallbackSecondaryRateRetryAfter policy
  end.

(** Modelled from the spec: the retry loop of '@octokit/plugin-throttling'
    (third-party, not among the sources).  Spec 4.1 step 5: on either
    rate-limit signal the policy's callback sees the attempt's retry count
    and permits a retry or lets the error propagate.  [n] retries have been
    made so far; the first attempt has [n = 0].  [fuel] bounds the attempts
    explored: with callbacks that always say yes the loop need not end.
    A failure that is no rate-limit signal is thrown as it comes: the spec
    (section 7) leaves any retry of those to the HTTP layer, so what is said
    below about the number of attempts is said of runs without them. *)
Fixpoint attempts (fuel : nat) (client : ClientOptions OctokitOptions)
    (n : nat) (params : Dispatch.t) : Action Ev unit :=
  match fuel with
  | 0 => diverge
  | S fuel' =>
      emit (HttpAttempt n) ;;
      match remote (octokitOptions client) (S n) params with
      | NoContent => ret tt
      | RateLimited retryAfter e =>
          if Throttle.onRateLimit (throttle_of client) retryAfter
               (dispatchRequestOptions n)
          then emit (Waited retryAfter) ;; attempts fuel' client (S n) params
          else throw (RequestError e)
      | SecondaryRateLimited suggested e =>
          let retryAfter := secondaryRetryAfter (throttle_of client) suggested in
          if Throttle.onSecondaryRateLimit (throttle_of client) retryAfter
               (dispatchRequestOptions n)
          then emit (Waited retryAfter) ;; attempts fuel' client (S n) params
          else throw (RequestError e)
      | Failed e => throw (RequestError e)
      end
  end.

(** [client.rest.actions.createWorkflowDispatch(params)]: one call, which
    the plugin may turn into several attempts. *)
Definition createWorkflowDispatch (fuel : nat)
    (client : ClientOptions OctokitOptions) (params : Dispatch.t)
  : Action Ev unit :=
  emit (DispatchCalled params) ;; attempts fuel client 0 params.

(** The two template literals of the handler. *)
Definition dispatchingMessage (i : Input.t) : string :=
  "Dispatching workflow " ++ Input.workflowId i ++ " for repo "
    ++ Input.repoUrl i ++ " on " ++ Input.branchOrTagName i.

Definition dispatchedMessage (i : Input.t) : string :=
  "Workflow " ++ Input.workflowId i ++ " dispatched successfully".

(** The argument object the handler passes to [getOctokitOptions]
    (source lines 104-109). *)
Definition octokitArgs (i : Input.t)
  : OctokitArgs.t ScmIntegrations GithubCredentialsProvider := {|
  OctokitArgs.integrations := integrations;
  OctokitArgs.repoUrl := Input.repoUrl i;
  OctokitArgs.credentialsProvider := githubCredentialsProvider;
  OctokitArgs.token := Input.token i
|}.

(** The argument object the handler passes to [createWorkflowDispatch]
    (source lines 123-129). *)
Definition dispatchParams (i : Input.t) (parsed : Parsed.t) : Dispatch.t := {|
  Dispatch.owner := Parsed.owner parsed;
  Dispatch.repo := Parsed.repo parsed;
  Dispatch.workflow_id := Input.workflowId i;
  Dispatch.ref := Input.branchOrTagName i;
  Dispatch.inputs := Input.workflowInputs i
|}.

(** [async handler(ctx)], source lines 83-132. *)
Definition handler (fuel : nat) (ctx : Ctx) : Action Ev unit :=
  logger_info (dispatchingMessage (input ctx)) ;;
  parsed <- call (parseRepoUrl (Input.repoUrl (input ctx)) integrations) ;;
  if negb (truthy (Parsed.owner parsed)) then
    throw (InputError "Invalid repository owner provided in repoUrl")
  else
    opts <- resolveOptions (octokitArgs (input ctx)) ;;
    client <- newThrottledRetry {| octokitOptions := opts;
                                   throttle_of := throttle |} ;;
    createWorkflowDispatch fuel client (dispatchParams (input ctx) parsed) ;;
    logger_info (dispatchedMessage (input ctx)).

(** ** Reading a trace *)

(** The messages logged, in order. *)
Fixpoint logs (tr : list Ev) : list string :=
  match tr with
  | [] => []
  | LogInfo m :: rest => m :: logs rest
  | _ :: rest => logs rest
  end.

(** The arguments of the calls of [createWorkflowDispatch], in order. *)
Fixpoint dispatchCalls (tr : list Ev) : list Dispatch.t :=
  match tr with
  | [] => []
  | DispatchCalled p :: rest => p :: dispatchCalls rest
  | _ :: rest => dispatchCalls rest
  end.

(** The arguments of the calls of [getOctokitOptions], in order. *)
Fixpoint optionsRequests (tr : list Ev)
  : list (OctokitArgs.t ScmIntegrations GithubCredentialsProvider) :=
  match tr with
  | [] => []
  | OptionsRequested a :: rest => a :: optionsRequests rest
  | _ :: rest => optionsRequests rest
  end.

(** The clients constructed, in order. *)
Fixpoint clientsCreated (tr : list Ev) : list (ClientOptions OctokitOptions) :=
  match tr with
  | [] => []
  | ClientCreated c :: rest => c :: clientsCreated rest
  | _ :: rest => clientsCreated rest
  end.

(** The HTTP attempts made, by retry count, in order. *)
Fixpoint httpAttempts (tr : list Ev) : list nat :=
  match tr with
  | [] => []
  | HttpAttempt n :: rest => n :: httpAttempts rest
  | _ :: rest => httpAttempts rest
  end.

(** Everything but logging: credential resolution, client construction,
    the dispatch call, its attempts and the waits between them. *)
Definition isLog (ev : Ev) : bool :=
  match ev with
  | LogInfo _ => true
  | _ => false
  end.

Definition clientActivity (tr : list Ev) : list Ev :=
  filter (fun ev => negb (isLog ev)) tr.

(** Events of the request loop: an HTTP attempt, or a wait before the next. *)
Definition isAttemptEvent (ev : Ev) : bool :=
  match ev with
  | HttpAttempt _ | Waited _ => true
  | _ => false
  end.

(** The error a response carries, if it is one. *)
Definition responseError (r : Response) : option RemoteError :=
  match r with
  | NoContent => None
  | RateLimited _ e | SecondaryRateLimited _ e | Failed e => Some e
  end.

(** Either rate-limit signal. *)
Definition rateLimited (r : Response) : bool :=
  match r with
  | RateLimited _ _ | SecondaryRateLimited _ _ => true
  | _ => false
  end.

End DispatchAction.

Arguments handler {_ _ _} _ _ _ _ _ _ _.
Arguments attempts {_ _ _} _ _ _ _ _.
Arguments createWorkflowDispatch {_ _ _} _ _ _ _.
Arguments octokitArgs {_ _} _ _ _.
Arguments logs {_ _ _} _.
Arguments dispatchCalls {_ _ _} _.
Arguments optionsRequests {_ _ _} _.
Arguments clientsCreated {_ _ _} _.
Arguments httpAttempts {_ _ _} _.
Arguments clientActivity {_ _ _} _.
Arguments isLog {_ _ _} _.
Arguments isAttemptEvent {_ _ _} _.

(** What [createTemplateAction] is given: the action's id, description, the
    required input fields of its schema, and the handler. *)
Module TemplateAction.
Record t (Ev : Type) : Type := {
  id : string;
  description : string;
  required : list string;
  handler : nat -> Ctx -> Action Ev unit
}.
End TemplateAction.

(** [options] of [createGithubActionsDispatchAction]. *)
Module Options.
Record t (I P : Type) : Type := {
  integrations : I;
  githubCredentialsProvider : option P
}.
Arguments integrations {I P} _.
Arguments githubCredentialsProvider {I P} _.
End Options.

(** [createGithubActionsDispatchAction(options)], source lines 32-134. *)
Definition createGithubActionsDispatchAction {I P O : Type}
    (parseRepoUrl : string -> I -> Error + Parsed.t)
    (getOctokitOptions : OctokitArgs.t I P -> Error + O)
    (remote : O -> nat -> Dispatch.t -> Response)
    (options : Options.t I P) : TemplateAction.t (Event I P O) := {|
  TemplateAction.id := "github:actions:dispatch";
  TemplateAction.description :=
    "Dispatches a GitHub Action workflow for a given branch or tag";
  TemplateAction.required := ["repoUrl"; "workflowId"; "branchOrTagName"];
  TemplateAction.handler :=
    handler parseRepoUrl getOctokitOptions remote
      (Options.integrations options)
      (Options.githubCredentialsProvider options)
|}.

(** ** More readings of a run *)

(** The waits made between attempts, in order. *)
Fixpoint waits {I P O : Type} (tr : list (Event I P O)) : list Z :=
  match tr with
  | [] => []
  | Waited w :: rest => w :: waits rest
  | _ :: rest => waits rest
  end.

(** Whether an awaited computation returned (the promise resolved). *)
Definition returned {A : Type} (o : Outcome A) : bool :=
  match o with
  | Returned _ => true
  | _ => false
  end.

(* ================================================================== *)
(** * Collaborators that are not among the sources *)

(** Modelled from the spec: [getOctokitOptions] ('./helpers') is not among
    the sources.  Spec 4.1 step 4: the client's identity is "derived from
    integrations, the repo URL, optional explicit token, and an optional
    credentials provider (explicit token takes precedence when supplied)".
    [fromProvider] stands for whatever the credentials provider yields. *)
Record Credentials : Type := { auth : string }.

Definition getOctokitOptions_spec {I P : Type}
    (fromProvider : I -> option P -> string -> Error + string)
    (args : OctokitArgs.t I P) : Error + Credentials :=
  match OctokitArgs.token args with
  | Some t => inr {| auth := t |}
  | None =>
      match fromProvider (OctokitArgs.integrations args)
              (OctokitArgs.credentialsProvider args)
              (OctokitArgs.repoUrl args) with
      | inl e => inl e
      | inr t => inr {| auth := t |}
      end
  end.

(** Modelled from the spec: [parseRepoUrl] ('../publish/util') is not among
    the sources.  The spec gives its contract, "parseRepoUrl(repoUrl,
    integrations) -> {owner, repo}", and the input schema the format
    'github.com?repo=reponame&owner=owner'.  This stand-in reads that
    format; only the scenarios below use it. *)
Fixpoint splitOn (sep : ascii) (s : string) : list string :=
  match s with
  | EmptyString => [EmptyString]
  | String c rest =>
      if Ascii.eqb c sep then EmptyString :: splitOn sep rest
      else
        match splitOn sep rest with
        | [] => [String c EmptyString]
        | piece :: pieces => String c piece :: pieces
        end
  end.

Definition keyValue (s : string) : string * string :=
  match splitOn "=" s with
  | k :: v :: _ => (k, v)
  | k :: [] => (k, "")
  | [] => ("", "")
  end.

Fixpoint searchParam (key : string) (params : list (string * string))
  : option string :=
  match params with
  | [] => None
  | (k, v) :: rest => if k =? key then Some v else searchParam key rest
  end.

Definition parseRepoUrl_standin {I : Type} (repoUrl : string) (_ : I)
  : Error + Parsed.t :=
  match splitOn "?" repoUrl with
  | _ :: query :: _ =>
      let params := map keyValue (splitOn "&" query) in
      inr {| Parsed.owner := searchParam "owner" params;
             Parsed.repo := searchParam "repo" params |}
  | _ => inr {| Parsed.owner := None; Parsed.repo := None |}
  end.

(** ** Scenarios *)

Module Scenario.

(** The input of the spec's scenario (section 8). *)
Definition demoInput : Input.t := {|
  Input.repoUrl := "github.com?repo=demo&owner=acme";
  Input.workflowId := "ci.yml";
  Input.branchOrTagName := "main";
  Input.workflowInputs := None;
  Input.token := None
|}.

Definition demoCtx : Ctx := {| input := demoInput |}.

(** The same with an explicit token and workflow inputs. *)
Definition tokenInput : Input.t := {|
  Input.repoUrl := "github.com?repo=demo&owner=acme";
  Input.workflowId := "ci.yml";
  Input.branchOrTagName := "main";
  Input.workflowInputs := Some [("environment", "staging")];
  Input.token := Some "ghp_explicit"
|}.

Definition tokenCtx : Ctx := {| input := tokenInput |}.

(** A repository location without an owner, and one without a repo. *)
Definition ownerlessCtx : Ctx := {| input := {|
  Input.repoUrl := "github.com?repo=demo";
  Input.workflowId := "ci.yml";
  Input.branchOrTagName := "main";
  Input.workflowInputs := None;
  Input.token := None
|} |}.

Definition repolessCtx : Ctx := {| input := {|
  Input.repoUrl := "github.com?owner=acme";
  Input.workflowId := "ci.yml";
  Input.branchOrTagName := "main";
  Input.workflowInputs := None;
  Input.token := None
|} |}.

(** What the stand-in parser reads off these repository locations. *)
Definition acmeDemo : Parsed.t :=
  {| Parsed.owner := Some "acme"; Parsed.repo := Some "demo" |}.

Definition ownerless : Parsed.t :=
  {| Parsed.owner := None; Parsed.repo := Some "demo" |}.

Definition repoless : Parsed.t :=
  {| Parsed.owner := Some "acme"; Parsed.repo := None |}.

(** A credentials provider that yields one fixed token. *)
Definition providerToken (_ : unit) (_ : option unit) (_ : string)
  : Error + string := inr "ghs_from_provider".

Definition resolve : OctokitArgs.t unit unit -> Error + Credentials :=
  getOctokitOptions_spec providerToken.

Definition rateLimitError : RemoteError :=
  HttpError 403%Z "API rate limit exceeded".

Definition secondaryError : RemoteError :=
  HttpError 403%Z "You have exceeded a secondary rate limit".

Definition notFoundError : RemoteError := HttpError 404%Z "Not Found".

(** A provider that accepts the first attempt. *)
Definition accepting (_ : Credentials) (_ : nat) (_ : Dispatch.t) : Response :=
  NoContent.

(** A provider that rate-limits attempts 1 to 4 (alternating the two
    signals) and accepts from attempt 5 on. *)
Definition limitedFourTimes (_ : Credentials) (k : nat) (_ : Dispatch.t)
  : Response :=
  if (k <=? 4)%nat then
    if Nat.even k then SecondaryRateLimited None secondaryError
    else RateLimited 1%Z rateLimitError
  else NoContent.

(** A provider that rate-limits every attempt. *)
Definition alwaysLimited (_ : Credentials) (_ : nat) (_ : Dispatch.t)
  : Response :=
  RateLimited 1%Z rateLimitError.

(** A provider that does not know the workflow. *)
Definition unknownWorkflow (_ : Credentials) (_ : nat) (_ : Dispatch.t)
  : Response :=
  Failed notFoundError.

(** The action under test with these collaborators. *)
Definition runWith (remote : Credentials -> nat -> Dispatch.t -> Response)
    (fuel : nat) (ctx : Ctx) : Action (Event unit unit Credentials) unit :=
  handler parseRepoUrl_standin resolve remote tt None fuel ctx.

End Scenario.

(** Collaborators that throw. *)
Module Failing.

(** A parser that rejects a location without a query part, as the real one
    rejects a location it cannot read; otherwise the stand-in. *)
Definition parseOrThrow (repoUrl : string) (i : unit) : Error + Parsed.t :=
  match splitOn "?" repoUrl with
  | _ :: _ :: _ => parseRepoUrl_standin repoUrl i
  | _ => inl (InputError "Invalid repo URL passed to publisher")
  end.

Definition unparsableCtx : Ctx := {| input := {|
  Input.repoUrl := "not a location";
  Input.workflowId := "ci.yml";
  Input.branchOrTagName := "main";
  Input.workflowInputs := None;
  Input.token := None
|} |}.

(** A credentials provider that has no token for the host. *)
Definition noCredentials (_ : unit) (_ : option unit) (_ : string)
  : Error + string :=
  inl (InputError "No token available for host").

Definition resolve : OctokitArgs.t unit unit -> Error + Credentials :=
  getOctokitOptions_spec noCredentials.

End Failing.

(* ================================================================== *)
(** * Scenario runs *)

Example demo_run :
  Scenario.runWith Scenario.accepting 1 Scenario.demoCtx =
  ([ LogInfo "Dispatching workflow ci.yml for repo github.com?repo=demo&owner=acme on main";
     OptionsRequested {| OctokitArgs.integrations := tt;
                         OctokitArgs.repoUrl := "github.com?repo=demo&owner=acme";
                         OctokitArgs.credentialsProvider := None;
                         OctokitArgs.token := None |};
     ClientCreated {| octokitOptions := {| auth := "ghs_from_provider" |};
                      throttle_of := throttle |};
     DispatchCalled {| Dispatch.owner := Some "acme";
                       Dispatch.repo := Some "demo";
                       Dispatch.workflow_id := "ci.yml";
                       Dispatch.ref := "main";
                       Dispatch.inputs := None |};
     HttpAttempt 0;
     LogInfo "Workflow ci.yml dispatched successfully" ],
   Returned tt).
Proof. reflexivity. Qed.

Example ownerless_run :
  Scenario.runWith Scenario.accepting 1 Scenario.ownerlessCtx =
  ([ LogInfo "Dispatching workflow ci.yml for repo github.com?repo=demo on main" ],
   Threw (InputError "Invalid repository owner provided in repoUrl")).
Proof. reflexivity. Qed.

Example limited_four_times_run :
  httpAttempts (trace (Scenario.runWith Scenario.limitedFourTimes 5 Scenario.demoCtx))
    = [0; 1; 2; 3; 4]%nat
  /\ outcome (Scenario.runWith Scenario.limitedFourTimes 5 Scenario.demoCtx)
    = Returned tt.
Proof. split; reflexivity. Qed.

Example always_limited_run :
  httpAttempts (trace (Scenario.runWith Scenario.alwaysLimited 9 Scenario.demoCtx))
    = [0; 1; 2; 3; 4]%nat
  /\ outcome (Scenario.runWith Scenario.alwaysLimited 9 Scenario.demoCtx)
    = Threw (RequestError Scenario.rateLimitError).
Proof. split; reflexivity. Qed.

(* ================================================================== *)
(** * Properties *)

(** ** The throttle policy *)

Lemma onRateLimit_lt (w : Z) (opts : RequestOptions) :
  Throttle.onRateLimit throttle w opts = true
  <-> (retryCount (request opts) < 4)%Z.
Proof. unfold throttle; simpl. apply Z.ltb_lt. Qed.

Lemma onSecondaryRateLimit_lt (w : Z) (opts : RequestOptions) :
  Throttle.onSecondaryRateLimit throttle w opts = true
  <-> (retryCount (request opts) < 4)%Z.
Proof. unfold throttle; simpl. apply Z.ltb_lt. Qed.

(** ** Sequencing *)

Lemma trace_emit_bind {Ev B : Type} (ev : Ev) (k : unit -> Action Ev B) :
  trace (bind (emit ev) k) = ev :: trace (k tt).
Proof. unfold bind, emit, trace. destruct (k tt); reflexivity. Qed.

Lemma outcome_emit_bind {Ev B : Type} (ev : Ev) (k : unit -> Action Ev B) :
  outcome (bind (emit ev) k) = outcome (k tt).
Proof. unfold bind, emit, outcome. destruct (k tt); reflexivity. Qed.

(** ** Traces *)

Section TraceFacts.

Variables I P O : Type.
Implicit Types tr : list (Event I P O).

Lemma logs_app tr tr' : logs (tr ++ tr') = logs tr ++ logs tr'.
Proof.
  induction tr as [|ev tr IH]; simpl; [reflexivity|].
  destruct ev; simpl; rewrite IH; reflexivity.
Qed.

Lemma dispatchCalls_app tr tr' :
  dispatchCalls (tr ++ tr') = dispatchCalls tr ++ dispatchCalls tr'.
Proof.
  induction tr as [|ev tr IH]; simpl; [reflexivity|].
  destruct ev; simpl; rewrite IH; reflexivity.
Qed.

Lemma httpAttempts_app tr tr' :
  httpAttempts (tr ++ tr') = httpAttempts tr ++ httpAttempts tr'.
Proof.
  induction tr as [|ev tr IH]; simpl; [reflexivity|].
  destruct ev; simpl; rewrite IH; reflexivity.
Qed.

Lemma clientsCreated_app tr tr' :
  clientsCreated (tr ++ tr') = clientsCreated tr ++ clientsCreated tr'.
Proof.
  induction tr as [|ev tr IH]; simpl; [reflexivity|].
  destruct ev; simpl; rewrite IH; reflexivity.
Qed.

Lemma optionsRequests_app tr tr' :
  optionsRequests (tr ++ tr') = optionsRequests tr ++ optionsRequests tr'.
Proof.
  induction tr as [|ev tr IH]; simpl; [reflexivity|].
  destruct ev; simpl; rewrite IH; reflexivity.
Qed.

(** A trace of the request loop alone holds no log, no client, no call. *)
Lemma attempt_events_logs tr :
  forallb isAttemptEvent tr = true -> logs tr = [].
Proof.
  induction tr as [|ev tr IH]; simpl; [reflexivity|].
  destruct ev; simpl; intros H; try discriminate; auto.
Qed.

Lemma attempt_events_dispatchCalls tr :
  forallb isAttemptEvent tr = true -> dispatchCalls tr = [].
Proof.
  induction tr as [|ev tr IH]; simpl; [reflexivity|].
  destruct ev; simpl; intros H; try discriminate; auto.
Qed.

Lemma attempt_events_clientsCreated tr :
  forallb isAttemptEvent tr = true -> clientsCreated tr = [].
Proof.
  induction tr as [|ev tr IH]; simpl; [reflexivity|].
  destruct ev; simpl; intros H; try discriminate; auto.
Qed.

Lemma attempt_events_optionsRequests tr :
  forallb isAttemptEvent tr = true -> optionsRequests tr = [].
Proof.
  induction tr as [|ev tr IH]; simpl; [reflexivity|].
  destruct ev; simpl; intros H; try discriminate; auto.
Qed.

End TraceFacts.

(** ** The request loop *)

Section Loop.

Variables ScmIntegrations GithubCredentialsProvider OctokitOptions : Type.
Variable remote : OctokitOptions -> nat -> Dispatch.t -> Response.
Implicit Types client : ClientOptions OctokitOptions.

Local Abbreviation loop :=
  (@attempts ScmIntegrations GithubCredentialsProvider OctokitOptions remote).

(** The loop emits attempts and waits, nothing else. *)
Lemma attempts_events fuel : forall client n params,
  forallb isAttemptEvent
    (trace (loop fuel client n params)) = true.
Proof.
  induction fuel as [|fuel IH]; intros client n params; simpl; [reflexivity|].
  destruct (remote (octokitOptions client) (S n) params); simpl; try reflexivity.
  - destruct (Throttle.onRateLimit _ _ _); simpl; [|reflexivity].
    specialize (IH client (S n) params).
    destruct (loop fuel client (S n) params) as [tr [[]|e'|]];
      simpl in *; exact IH.
  - destruct (Throttle.onSecondaryRateLimit _ _ _); simpl; [|reflexivity].
    specialize (IH client (S n) params).
    destruct (loop fuel client (S n) params) as [tr [[]|e'|]];
      simpl in *; exact IH.
Qed.

(** Whatever the loop throws is an error of the request. *)
Lemma attempts_throw fuel : forall client n params e,
  outcome (loop fuel client n params) = Threw e ->
  exists re, e = RequestError re
    /\ exists k, responseError (remote (octokitOptions client) k params) = Some re.
Proof.
  induction fuel as [|fuel IH]; intros client n params e; simpl;
    [discriminate|].
  destruct (remote (octokitOptions client) (S n) params) as [|w re|s re|re] eqn:R;
    simpl.
  - discriminate.
  - destruct (Throttle.onRateLimit _ _ _); simpl.
    + specialize (IH client (S n) params e).
      destruct (loop fuel client (S n) params) as [tr [[]|e'|]];
        simpl in *; try discriminate; exact IH.
    + intros H; injection H as <-. exists re; split; [reflexivity|].
      exists (S n); rewrite R; reflexivity.
  - destruct (Throttle.onSecondaryRateLimit _ _ _); simpl.
    + specialize (IH client (S n) params e).
      destruct (loop fuel client (S n) params) as [tr [[]|e'|]];
        simpl in *; try discriminate; exact IH.
    + intros H; injection H as <-. exists re; split; [reflexivity|].
      exists (S n); rewrite R; reflexivity.
  - intros H; injection H as <-. exists re; split; [reflexivity|].
    exists (S n); rewrite R; reflexivity.
Qed.


End Loop.

(** Names the request loop in the goal and records what it can emit. *)
Ltac name_loop L Hev :=
  match goal with
  | |- context [@attempts ?I ?P ?O ?r ?f ?c ?n ?p] =>
      pose proof (attempts_events I P O r f c n p) as Hev;
      set (L := @attempts I P O r f c n p) in *
  end.

(** ** The handler's request loop under its own policy *)

Section Policy.

Variables ScmIntegrations GithubCredentialsProvider OctokitOptions : Type.
Variable remote : OctokitOptions -> nat -> Dispatch.t -> Response.

Local Abbreviation loop :=
  (@attempts ScmIntegrations GithubCredentialsProvider OctokitOptions remote).
Local Abbreviation clientOf opts :=
  {| octokitOptions := opts; throttle_of := throttle |}.

Lemma retry_permitted (n : nat) :
  (n < 4)%nat -> (Z.of_nat n <? 4)%Z = true.
Proof. intros H. apply Z.ltb_lt. lia. Qed.

Lemma retry_refused (n : nat) :
  (4 <= n)%nat -> (Z.of_nat n <? 4)%Z = false.
Proof. intros H. apply Z.ltb_ge. lia. Qed.

Lemma loop_accept fuel opts n params :
  remote opts (S n) params = NoContent ->
  loop (S fuel) (clientOf opts) n params = ([HttpAttempt n], Returned tt).
Proof. intros R. cbn [attempts octokitOptions]. rewrite R. reflexivity. Qed.

Lemma loop_failed fuel opts n params e :
  remote opts (S n) params = Failed e ->
  loop (S fuel) (clientOf opts) n params
    = ([HttpAttempt n], Threw (RequestError e)).
Proof. intros R. cbn [attempts octokitOptions]. rewrite R. reflexivity. Qed.

Lemma loop_primary_retry fuel opts n params w e :
  remote opts (S n) params = RateLimited w e ->
  (n < 4)%nat ->
  loop (S fuel) (clientOf opts) n params
    = (HttpAttempt n :: Waited w :: trace (loop fuel (clientOf opts) (S n) params),
       outcome (loop fuel (clientOf opts) (S n) params)).
Proof.
  intros R Hn. cbn [attempts octokitOptions]. rewrite R.
  cbn [throttle_of throttle Throttle.onRateLimit dispatchRequestOptions
       request retryCount].
  rewrite (retry_permitted n Hn).
  destruct (loop fuel (clientOf opts) (S n) params) as [tr [[]|e'|]];
    reflexivity.
Qed.

Lemma loop_secondary_retry fuel opts n params s e :
  remote opts (S n) params = SecondaryRateLimited s e ->
  (n < 4)%nat ->
  loop (S fuel) (clientOf opts) n params
    = (HttpAttempt n :: Waited (secondaryRetryAfter throttle s)
         :: trace (loop fuel (clientOf opts) (S n) params),
       outcome (loop fuel (clientOf opts) (S n) params)).
Proof.
  intros R Hn. cbn [attempts octokitOptions]. rewrite R.
  cbn [throttle_of throttle Throttle.onSecondaryRateLimit
       dispatchRequestOptions request retryCount].
  rewrite (retry_permitted n Hn).
  destruct (loop fuel (clientOf opts) (S n) params) as [tr [[]|e'|]];
    reflexivity.
Qed.

Lemma loop_give_up fuel opts n params :
  rateLimited (remote opts (S n) params) = true ->
  (4 <= n)%nat ->
  exists e,
    responseError (remote opts (S n) params) = Some e
    /\ loop (S fuel) (clientOf opts) n params
       = ([HttpAttempt n], Threw (RequestError e)).
Proof.
  intros R Hn. cbn [attempts octokitOptions].
  destruct (remote opts (S n) params) as [|w e|s e|e]; try discriminate R;
    exists e; (split; [reflexivity|]);
    cbn [throttle_of throttle Throttle.onRateLimit
         Throttle.onSecondaryRateLimit dispatchRequestOptions request
         retryCount];
    rewrite (retry_refused n Hn); reflexivity.
Qed.

(** A rate-limited attempt below the cap is followed by the next one. *)
Lemma loop_retry fuel opts n params :
  rateLimited (remote opts (S n) params) = true ->
  (n < 4)%nat ->
  outcome (loop (S fuel) (clientOf opts) n params)
    = outcome (loop fuel (clientOf opts) (S n) params)
  /\ httpAttempts (trace (loop (S fuel) (clientOf opts) n params))
    = n :: httpAttempts (trace (loop fuel (clientOf opts) (S n) params)).
Proof.
  intros R Hn.
  destruct (remote opts (S n) params) as [|w e|s e|e] eqn:E;
    try discriminate R.
  - rewrite (loop_primary_retry fuel opts n params w e E Hn). split; reflexivity.
  - rewrite (loop_secondary_retry fuel opts n params s e E Hn). split; reflexivity.
Qed.

(** Four rate-limited attempts in a row lead to the fifth. *)
Lemma loop_four_retries fuel opts params :
  (forall k, (1 <= k <= 4)%nat -> rateLimited (remote opts k params) = true) ->
  outcome (loop (4 + fuel) (clientOf opts) 0 params)
    = outcome (loop fuel (clientOf opts) 4 params)
  /\ httpAttempts (trace (loop (4 + fuel) (clientOf opts) 0 params))
    = [0; 1; 2; 3]%nat ++ httpAttempts (trace (loop fuel (clientOf opts) 4 params)).
Proof.
  intros H.
  assert (H1 := loop_retry (3 + fuel) opts 0 params (H 1%nat ltac:(lia)) ltac:(lia)).
  assert (H2 := loop_retry (2 + fuel) opts 1 params (H 2%nat ltac:(lia)) ltac:(lia)).
  assert (H3 := loop_retry (1 + fuel) opts 2 params (H 3%nat ltac:(lia)) ltac:(lia)).
  assert (H4 := loop_retry fuel opts 3 params (H 4%nat ltac:(lia)) ltac:(lia)).
  destruct H1 as [O1 T1], H2 as [O2 T2], H3 as [O3 T3], H4 as [O4 T4].
  change (S (3 + fuel)) with (4 + fuel)%nat in *.
  change (S (2 + fuel)) with (3 + fuel)%nat in *.
  change (S (1 + fuel)) with (2 + fuel)%nat in *.
  change (S fuel) with (1 + fuel)%nat in *.
  split.
  - rewrite O1, O2, O3, O4. reflexivity.
  - rewrite T1, T2, T3, T4. reflexivity.
Qed.

(** Under the handler's policy the loop ends within five attempts: with
    that much fuel it never runs out, and more fuel changes nothing. *)
Lemma loop_bounded fuel : forall opts n params,
  (1 <= fuel)%nat -> (5 <= n + fuel)%nat ->
  outcome (loop fuel (clientOf opts) n params) <> OutOfFuel.
Proof.
  induction fuel as [|fuel IH]; intros opts n params H1 H5; [lia|].
  destruct (remote opts (S n) params) as [|w e|s e|e] eqn:R.
  - rewrite (loop_accept fuel opts n params R). discriminate.
  - destruct (Nat.lt_ge_cases n 4) as [Hn|Hn].
    + rewrite (loop_primary_retry fuel opts n params w e R Hn).
      cbn [outcome snd]. apply IH; lia.
    + destruct (loop_give_up fuel opts n params) as [e' [_ L]];
        [rewrite R; reflexivity | exact Hn |].
      rewrite L. discriminate.
  - destruct (Nat.lt_ge_cases n 4) as [Hn|Hn].
    + rewrite (loop_secondary_retry fuel opts n params s e R Hn).
      cbn [outcome snd]. apply IH; lia.
    + destruct (loop_give_up fuel opts n params) as [e' [_ L]];
        [rewrite R; reflexivity | exact Hn |].
      rewrite L. discriminate.
  - rewrite (loop_failed fuel opts n params e R). discriminate.
Qed.

Lemma loop_fuel_irrelevant fuel : forall fuel' opts n params,
  (1 <= fuel)%nat -> (5 <= n + fuel)%nat ->
  (1 <= fuel')%nat -> (5 <= n + fuel')%nat ->
  loop fuel (clientOf opts) n params = loop fuel' (clientOf opts) n params.
Proof.
  induction fuel as [|fuel IH]; intros [|fuel'] opts n params H1 H5 H1' H5';
    try lia.
  destruct (remote opts (S n) params) as [|w e|s e|e] eqn:R.
  - rewrite !(loop_accept _ opts n params R). reflexivity.
  - destruct (Nat.lt_ge_cases n 4) as [Hn|Hn].
    + rewrite !(loop_primary_retry _ opts n params w e R Hn).
      rewrite (IH fuel' opts (S n) params); try lia. reflexivity.
    + destruct (loop_give_up fuel opts n params) as [e1 [E1 L1]];
        [rewrite R; reflexivity | exact Hn |].
      destruct (loop_give_up fuel' opts n params) as [e2 [E2 L2]];
        [rewrite R; reflexivity | exact Hn |].
      rewrite L1, L2. congruence.
  - destruct (Nat.lt_ge_cases n 4) as [Hn|Hn].
    + rewrite !(loop_secondary_retry _ opts n params s e R Hn).
      rewrite (IH fuel' opts (S n) params); try lia. reflexivity.
    + destruct (loop_give_up fuel opts n params) as [e1 [E1 L1]];
        [rewrite R; reflexivity | exact Hn |].
      destruct (loop_give_up fuel' opts n params) as [e2 [E2 L2]];
        [rewrite R; reflexivity | exact Hn |].
      rewrite L1, L2. congruence.
  - rewrite !(loop_failed _ opts n params e R). reflexivity.
Qed.

End Policy.

(** ** The handler *)

Section Handler.

Variables ScmIntegrations GithubCredentialsProvider OctokitOptions : Type.
Variable parseRepoUrl : string -> ScmIntegrations -> Error + Parsed.t.
Variable getOctokitOptions :
  OctokitArgs.t ScmIntegrations GithubCredentialsProvider -> Error + OctokitOptions.
Variable remote : OctokitOptions -> nat -> Dispatch.t -> Response.
Variable integrations : ScmIntegrations.
Variable githubCredentialsProvider : option GithubCredentialsProvider.

Local Abbreviation action :=
  (handler parseRepoUrl getOctokitOptions remote integrations
     githubCredentialsProvider).
Local Abbreviation argsOf i :=
  (octokitArgs integrations githubCredentialsProvider i).
Local Abbreviation loop :=
  (@attempts ScmIntegrations GithubCredentialsProvider OctokitOptions remote).
Local Abbreviation clientOf opts :=
  {| octokitOptions := opts; throttle_of := throttle |}.
Local Abbreviation parse ctx :=
  (parseRepoUrl (Input.repoUrl (input ctx)) integrations).
Local Abbreviation dispatchCall :=
  (@createWorkflowDispatch ScmIntegrations GithubCredentialsProvider
     OctokitOptions remote).

(** The run of an invocation whose owner is missing. *)
Lemma handler_owner_missing fuel ctx parsed :
  parse ctx = inr parsed ->
  truthy (Parsed.owner parsed) = false ->
  action fuel ctx
    = ([LogInfo (dispatchingMessage (input ctx))],
       Threw (InputError "Invalid repository owner provided in repoUrl")).
Proof.
  intros Hp Ho. unfold handler, logger_info.
  rewrite Hp. cbn [call ret bind emit]. rewrite Ho. reflexivity.
Qed.

(** The run of an invocation whose options cannot be resolved. *)
Lemma handler_options_fail fuel ctx parsed e :
  parse ctx = inr parsed ->
  truthy (Parsed.owner parsed) = true ->
  getOctokitOptions (argsOf (input ctx)) = inl e ->
  action fuel ctx
    = ([LogInfo (dispatchingMessage (input ctx));
        OptionsRequested (argsOf (input ctx))],
       Threw e).
Proof.
  intros Hp Ho Hg. unfold handler, logger_info, resolveOptions.
  rewrite Hp. cbn [call ret bind emit]. rewrite Ho. cbn [negb].
  rewrite Hg. reflexivity.
Qed.

(** The run of an invocation that reaches the dispatch call. *)
Lemma handler_dispatches fuel ctx parsed opts :
  parse ctx = inr parsed ->
  truthy (Parsed.owner parsed) = true ->
  getOctokitOptions (argsOf (input ctx)) = inr opts ->
  action fuel ctx
    = (LogInfo (dispatchingMessage (input ctx))
         :: OptionsRequested (argsOf (input ctx))
         :: ClientCreated (clientOf opts)
         :: DispatchCalled (dispatchParams (input ctx) parsed)
         :: trace (loop fuel (clientOf opts) 0 (dispatchParams (input ctx) parsed))
         ++ match outcome (loop fuel (clientOf opts) 0
                             (dispatchParams (input ctx) parsed)) with
            | Returned _ => [LogInfo (dispatchedMessage (input ctx))]
            | _ => []
            end,
       outcome (loop fuel (clientOf opts) 0 (dispatchParams (input ctx) parsed))).
Proof.
  intros Hp Ho Hg.
  unfold handler, logger_info, resolveOptions, newThrottledRetry,
    createWorkflowDispatch.
  rewrite Hp. cbn [call ret bind emit]. rewrite Ho. cbn [negb].
  rewrite Hg. cbn [call ret bind emit app].
  destruct (loop fuel (clientOf opts) 0 (dispatchParams (input ctx) parsed))
    as [tr [[]|e|]]; cbn [trace outcome fst snd app];
    rewrite ?app_nil_r; reflexivity.
Qed.

(** The calls of the dispatch endpoint in a run that reaches it. *)
Lemma dispatchCalls_dispatches fuel ctx parsed opts :
  parse ctx = inr parsed ->
  truthy (Parsed.owner parsed) = true ->
  getOctokitOptions (argsOf (input ctx)) = inr opts ->
  dispatchCalls (trace (action fuel ctx)) = [dispatchParams (input ctx) parsed].
Proof.
  intros Hp Ho Hg.
  rewrite (handler_dispatches fuel ctx parsed opts Hp Ho Hg).
  cbn [trace fst dispatchCalls]. rewrite dispatchCalls_app.
  rewrite (attempt_events_dispatchCalls _ _ _ _ (attempts_events _ _ _ _ _ _ _ _)).
  destruct (outcome _); reflexivity.
Qed.

(** The calls of [getOctokitOptions] in a run that passes the owner check. *)
Lemma optionsRequests_owner_ok fuel ctx parsed :
  parse ctx = inr parsed ->
  truthy (Parsed.owner parsed) = true ->
  optionsRequests (trace (action fuel ctx)) = [argsOf (input ctx)].
Proof.
  intros Hp Ho.
  destruct (getOctokitOptions (argsOf (input ctx))) as [e|opts] eqn:Hg.
  - rewrite (handler_options_fail fuel ctx parsed e Hp Ho Hg). reflexivity.
  - rewrite (handler_dispatches fuel ctx parsed opts Hp Ho Hg).
    name_loop L Hev. destruct L as [tr o].
    cbn [trace outcome fst snd optionsRequests] in *.
    rewrite optionsRequests_app, (attempt_events_optionsRequests _ _ _ _ Hev).
    destruct o; reflexivity.
Qed.

(** The clients constructed in a run that reaches the dispatch call. *)
Lemma clientsCreated_dispatches fuel ctx parsed opts :
  parse ctx = inr parsed ->
  truthy (Parsed.owner parsed) = true ->
  getOctokitOptions (argsOf (input ctx)) = inr opts ->
  clientsCreated (trace (action fuel ctx)) = [clientOf opts].
Proof.
  intros Hp Ho Hg.
  rewrite (handler_dispatches fuel ctx parsed opts Hp Ho Hg).
  name_loop L Hev. destruct L as [tr o].
  cbn [trace outcome fst snd clientsCreated] in *.
  rewrite clientsCreated_app, (attempt_events_clientsCreated _ _ _ _ Hev).
  destruct o; reflexivity.
Qed.

(** C1. For every input whose repoUrl parses to an empty or absent owner,
    the handler fails with the InputError "Invalid repository owner provided
    in repoUrl" and does nothing but log: no options are resolved, no client
    is constructed, the dispatch endpoint is not called and no HTTP attempt
    is made. *)
Theorem owner_missing_rejected_without_network :
  forall fuel ctx parsed,
    parse ctx = inr parsed ->
    truthy (Parsed.owner parsed) = false ->
    outcome (action fuel ctx)
      = Threw (InputError "Invalid repository owner provided in repoUrl")
    /\ clientActivity (trace (action fuel ctx)) = []
    /\ clientsCreated (trace (action fuel ctx)) = []
    /\ dispatchCalls (trace (action fuel ctx)) = []
    /\ httpAttempts (trace (action fuel ctx)) = [].
Proof.
  intros fuel ctx parsed Hp Ho.
  rewrite (handler_owner_missing fuel ctx parsed Hp Ho).
  repeat split.
Qed.

(** C8. For every input whose repoUrl parses to an empty or absent owner,
    the "Dispatching workflow ..." entry is still logged, exactly once, and
    it is all that happens before the InputError is thrown. *)
Theorem owner_missing_still_logs_dispatching :
  forall fuel ctx parsed,
    parse ctx = inr parsed ->
    truthy (Parsed.owner parsed) = false ->
    trace (action fuel ctx) = [LogInfo (dispatchingMessage (input ctx))]
    /\ logs (trace (action fuel ctx)) = [dispatchingMessage (input ctx)]
    /\ exists message, outcome (action fuel ctx) = Threw (InputError message).
Proof.
  intros fuel ctx parsed Hp Ho.
  rewrite (handler_owner_missing fuel ctx parsed Hp Ho).
  repeat split. eexists; reflexivity.
Qed.

(** C2. For every input whose repoUrl parses to a non-empty owner, the
    dispatch endpoint is called at most once, and exactly once when the
    client options resolve; the call receives owner and repo from the
    parsed repoUrl, workflow_id = workflowId, ref = branchOrTagName and
    inputs = workflowInputs (absent when workflowInputs is absent). *)
Theorem dispatch_call_receives_input :
  forall fuel ctx parsed,
    parse ctx = inr parsed ->
    truthy (Parsed.owner parsed) = true ->
    dispatchCalls (trace (action fuel ctx))
      = match getOctokitOptions (argsOf (input ctx)) with
        | inl _ => []
        | inr _ =>
            [ {| Dispatch.owner := Parsed.owner parsed;
                 Dispatch.repo := Parsed.repo parsed;
                 Dispatch.workflow_id := Input.workflowId (input ctx);
                 Dispatch.ref := Input.branchOrTagName (input ctx);
                 Dispatch.inputs := Input.workflowInputs (input ctx) |} ]
        end.
Proof.
  intros fuel ctx parsed Hp Ho.
  destruct (getOctokitOptions (argsOf (input ctx))) as [e|opts] eqn:Hg.
  - rewrite (handler_options_fail fuel ctx parsed e Hp Ho Hg). reflexivity.
  - rewrite (dispatchCalls_dispatches fuel ctx parsed opts Hp Ho Hg).
    reflexivity.
Qed.

(** C9 (amended). Only the owner is validated: for every input whose
    repoUrl parses to a non-empty owner and an empty or absent repo, the
    handler passes its own check and goes on to resolve the client options.
    If that resolution returns, the dispatch endpoint is called with that
    empty or absent repo and the handler does not end in an InputError.  If
    it throws, the handler ends in that error, whatever it is, and the
    dispatch endpoint is not called. *)
Theorem repo_is_not_validated :
  forall fuel ctx parsed,
    parse ctx = inr parsed ->
    truthy (Parsed.owner parsed) = true ->
    truthy (Parsed.repo parsed) = false ->
    optionsRequests (trace (action fuel ctx)) = [argsOf (input ctx)]
    /\ match getOctokitOptions (argsOf (input ctx)) with
       | inl e =>
           outcome (action fuel ctx) = Threw e
           /\ dispatchCalls (trace (action fuel ctx)) = []
       | inr _ =>
           (exists p, dispatchCalls (trace (action fuel ctx)) = [p]
                      /\ Dispatch.repo p = Parsed.repo parsed
                      /\ truthy (Dispatch.repo p) = false)
           /\ forall message,
                outcome (action fuel ctx) <> Threw (InputError message)
       end.
Proof.
  intros fuel ctx parsed Hp Ho Hr.
  split; [exact (optionsRequests_owner_ok fuel ctx parsed Hp Ho)|].
  destruct (getOctokitOptions (argsOf (input ctx))) as [e|opts] eqn:Hg.
  - rewrite (handler_options_fail fuel ctx parsed e Hp Ho Hg).
    split; reflexivity.
  - split.
    + exists (dispatchParams (input ctx) parsed).
      rewrite (dispatchCalls_dispatches fuel ctx parsed opts Hp Ho Hg).
      repeat split. exact Hr.
    + intros message.
      rewrite (handler_dispatches fuel ctx parsed opts Hp Ho Hg).
      cbn [outcome snd]. intros H.
      destruct (attempts_throw _ _ _ _ _ _ _ _ _ H) as [re [E _]].
      discriminate E.
Qed.

(** The run of an invocation whose repoUrl cannot be parsed. *)
Lemma handler_parse_fail fuel ctx e :
  parse ctx = inl e ->
  action fuel ctx = ([LogInfo (dispatchingMessage (input ctx))], Threw e).
Proof.
  intros Hp. unfold handler, logger_info. rewrite Hp. reflexivity.
Qed.

Lemma httpAttempts_dispatches fuel ctx parsed opts :
  parse ctx = inr parsed ->
  truthy (Parsed.owner parsed) = true ->
  getOctokitOptions (argsOf (input ctx)) = inr opts ->
  httpAttempts (trace (action fuel ctx))
    = httpAttempts
        (trace (loop fuel (clientOf opts) 0 (dispatchParams (input ctx) parsed))).
Proof.
  intros Hp Ho Hg.
  rewrite (handler_dispatches fuel ctx parsed opts Hp Ho Hg).
  cbn [trace fst httpAttempts]. rewrite httpAttempts_app.
  destruct (outcome _); cbn [httpAttempts]; apply app_nil_r.
Qed.

(** The two log messages of one input never coincide. *)
Lemma messages_differ (i : Input.t) :
  dispatchingMessage i <> dispatchedMessage i.
Proof. unfold dispatchingMessage, dispatchedMessage. simpl. discriminate. Qed.

(** C3. On either rate-limit signal the throttle policy permits a retry if
    and only if the attempt's retry count is below 4.  Hence a run that is
    rate-limited on attempts 1 to 4 and accepted on attempt 5 returns, and a
    run that is rate-limited on attempt 5 as well fails with that attempt's
    error; both make exactly five attempts. *)
Theorem throttle_permits_four_retries :
  (forall w opts,
     Throttle.onRateLimit throttle w opts = true
     <-> (retryCount (request opts) < 4)%Z)
  /\ (forall w opts,
        Throttle.onSecondaryRateLimit throttle w opts = true
        <-> (retryCount (request opts) < 4)%Z)
  /\ forall fuel ctx parsed opts,
       (5 <= fuel)%nat ->
       parse ctx = inr parsed ->
       truthy (Parsed.owner parsed) = true ->
       getOctokitOptions (argsOf (input ctx)) = inr opts ->
       (forall k, (1 <= k <= 4)%nat ->
          rateLimited (remote opts k (dispatchParams (input ctx) parsed)) = true) ->
       (remote opts 5 (dispatchParams (input ctx) parsed) = NoContent ->
          outcome (action fuel ctx) = Returned tt
          /\ httpAttempts (trace (action fuel ctx)) = [0; 1; 2; 3; 4]%nat)
       /\ (rateLimited (remote opts 5 (dispatchParams (input ctx) parsed)) = true ->
           exists e,
             responseError (remote opts 5 (dispatchParams (input ctx) parsed))
               = Some e
             /\ outcome (action fuel ctx) = Threw (RequestError e)
             /\ httpAttempts (trace (action fuel ctx)) = [0; 1; 2; 3; 4]%nat).
Proof.
  split; [exact onRateLimit_lt|]. split; [exact onSecondaryRateLimit_lt|].
  intros fuel ctx parsed opts Hf Hp Ho Hg Hlim.
  destruct fuel as [|[|[|[|[|fuel]]]]]; try lia.
  rewrite (httpAttempts_dispatches _ ctx parsed opts Hp Ho Hg).
  rewrite (handler_dispatches _ ctx parsed opts Hp Ho Hg). cbn [outcome snd].
  destruct (loop_four_retries ScmIntegrations GithubCredentialsProvider OctokitOptions remote (S fuel) opts _ Hlim) as [Ho4 Ht4].
  change (4 + S fuel)%nat with (S (S (S (S (S fuel))))) in Ho4, Ht4.
  rewrite Ho4, Ht4. split.
  - intros R5. rewrite (loop_accept ScmIntegrations GithubCredentialsProvider OctokitOptions remote fuel opts 4 _ R5).
    split; reflexivity.
  - intros R5.
    destruct (loop_give_up ScmIntegrations GithubCredentialsProvider OctokitOptions remote fuel opts 4 _ R5 (le_n 4)) as [e [E L]].
    exists e. rewrite L. repeat split. exact E.
Qed.

(** C4. For every error the dispatch call ends in (retries exhausted, an
    unknown workflow or ref, an auth failure, a transport failure), the
    handler ends in exactly that error; nothing happens after the failed
    call, and the success entry is not logged. *)
Theorem dispatch_error_propagates_unmodified :
  forall fuel ctx parsed opts e,
    parse ctx = inr parsed ->
    truthy (Parsed.owner parsed) = true ->
    getOctokitOptions (argsOf (input ctx)) = inr opts ->
    outcome (dispatchCall fuel (clientOf opts)
               (dispatchParams (input ctx) parsed)) = Threw e ->
    outcome (action fuel ctx) = Threw e
    /\ trace (action fuel ctx)
       = [ LogInfo (dispatchingMessage (input ctx));
           OptionsRequested (argsOf (input ctx));
           ClientCreated (clientOf opts) ]
         ++ trace (dispatchCall fuel (clientOf opts)
                     (dispatchParams (input ctx) parsed))
    /\ logs (trace (action fuel ctx)) = [dispatchingMessage (input ctx)]
    /\ ~ In (dispatchedMessage (input ctx)) (logs (trace (action fuel ctx))).
Proof.
  intros fuel ctx parsed opts e Hp Ho Hg Hthrow.
  unfold createWorkflowDispatch in *.
  rewrite outcome_emit_bind in Hthrow. rewrite trace_emit_bind.
  rewrite (handler_dispatches fuel ctx parsed opts Hp Ho Hg).
  name_loop L Hev. destruct L as [tr o].
  cbn [trace outcome fst snd] in *. subst o.
  rewrite app_nil_r. cbn [logs app].
  rewrite (attempt_events_logs _ _ _ _ Hev).
  repeat split.
  intros [E|[]]. exact (messages_differ _ E).
Qed.

(** C7. The policy the handler configures falls back to a wait of 5 seconds:
    every client the handler constructs carries that policy, and a secondary
    rate limit without a suggested wait time, met below the retry cap, is
    followed by a wait of 5 seconds before the next attempt. *)
Theorem secondary_limit_falls_back_to_five_seconds :
  Throttle.fallbackSecondaryRateRetryAfter throttle = 5%Z
  /\ secondaryRetryAfter throttle None = 5%Z
  /\ (forall fuel ctx,
        Forall (fun c => throttle_of c = throttle)
          (clientsCreated (trace (action fuel ctx))))
  /\ forall fuel opts n params e,
       remote opts (S n) params = SecondaryRateLimited None e ->
       (n < 4)%nat ->
       trace (loop (S fuel) (clientOf opts) n params)
         = HttpAttempt n :: Waited 5
             :: trace (loop fuel (clientOf opts) (S n) params).
Proof.
  split; [reflexivity|]. split; [reflexivity|]. split.
  - intros fuel ctx.
    destruct (parse ctx) as [e|parsed] eqn:Hp.
    { rewrite (handler_parse_fail fuel ctx e Hp). constructor. }
    destruct (truthy (Parsed.owner parsed)) eqn:Ho.
    2:{ rewrite (handler_owner_missing fuel ctx parsed Hp Ho). constructor. }
    destruct (getOctokitOptions (argsOf (input ctx))) as [e|opts] eqn:Hg.
    { rewrite (handler_options_fail fuel ctx parsed e Hp Ho Hg). constructor. }
    rewrite (handler_dispatches fuel ctx parsed opts Hp Ho Hg).
    name_loop L Hev. destruct L as [tr o].
    cbn [trace outcome fst snd clientsCreated] in *.
    assert (E : clientsCreated
                  (tr ++ match o with
                         | Returned _ => [LogInfo (dispatchedMessage (input ctx))]
                         | _ => []
                         end) = []).
    { rewrite clientsCreated_app, (attempt_events_clientsCreated _ _ _ _ Hev).
      destruct o; reflexivity. }
    rewrite E. repeat constructor.
  - intros fuel opts n params e R Hn.
    rewrite (loop_secondary_retry ScmIntegrations GithubCredentialsProvider OctokitOptions remote fuel opts n params None e R Hn).
    reflexivity.
Qed.

(** C10. The two retry predicates are pure and identical: each returns the
    same boolean on the same retry count, whatever the suggested wait time
    and whatever else the options hold, and the primary and the secondary
    predicate agree on every retry count. *)
Theorem retry_predicates_depend_on_retry_count_only :
  forall (w1 w2 : Z) (opts1 opts2 : RequestOptions),
    retryCount (request opts1) = retryCount (request opts2) ->
    Throttle.onRateLimit throttle w1 opts1
      = Throttle.onRateLimit throttle w2 opts2
    /\ Throttle.onSecondaryRateLimit throttle w1 opts1
       = Throttle.onSecondaryRateLimit throttle w2 opts2
    /\ Throttle.onRateLimit throttle w1 opts1
       = Throttle.onSecondaryRateLimit throttle w2 opts2.
Proof.
  intros w1 w2 opts1 opts2 E. unfold throttle; simpl. rewrite E.
  repeat split.
Qed.


(** About the embedding: with the request loop as modelled, five attempts'
    worth of fuel is enough for every input, and the run does not depend on
    how much more there is. *)
Lemma handler_total fuel ctx :
  (5 <= fuel)%nat ->
  outcome (action fuel ctx) <> OutOfFuel
  /\ action fuel ctx = action 5 ctx.
Proof.
  intros Hf.
  destruct (parse ctx) as [e|parsed] eqn:Hp.
  { rewrite !(handler_parse_fail _ ctx e Hp). split; [discriminate|reflexivity]. }
  destruct (truthy (Parsed.owner parsed)) eqn:Ho.
  2:{ rewrite !(handler_owner_missing _ ctx parsed Hp Ho).
      split; [discriminate|reflexivity]. }
  destruct (getOctokitOptions (argsOf (input ctx))) as [e|opts] eqn:Hg.
  { rewrite !(handler_options_fail _ ctx parsed e Hp Ho Hg).
    split; [discriminate|reflexivity]. }
  rewrite !(handler_dispatches _ ctx parsed opts Hp Ho Hg).
  rewrite (loop_fuel_irrelevant ScmIntegrations GithubCredentialsProvider
             OctokitOptions remote fuel 5 opts 0
             (dispatchParams (input ctx) parsed)) by lia.
  split; [|reflexivity].
  cbn [outcome snd].
  apply (loop_bounded ScmIntegrations GithubCredentialsProvider
           OctokitOptions remote 5 opts 0); lia.
Qed.

End Handler.

(** What [createGithubActionsDispatchAction] registers. *)
Lemma action_registration {I P O : Type}
    (parseRepoUrl : string -> I -> Error + Parsed.t)
    (getOctokitOptions : OctokitArgs.t I P -> Error + O)
    (remote : O -> nat -> Dispatch.t -> Response)
    (options : Options.t I P) :
  let registered :=
    createGithubActionsDispatchAction parseRepoUrl getOctokitOptions remote
      options in
  TemplateAction.id _ registered = "github:actions:dispatch"
  /\ TemplateAction.required _ registered
     = ["repoUrl"; "workflowId"; "branchOrTagName"]
  /\ TemplateAction.handler _ registered
     = handler parseRepoUrl getOctokitOptions remote
         (Options.integrations options)
         (Options.githubCredentialsProvider options).
Proof. repeat split. Qed.

(** ** Properties that name a scenario or a modelled collaborator *)


(** C6. For every input that supplies the optional token, client-option
    resolution is invoked once, with exactly that token beside the
    integrations, the repoUrl and the credentials provider, and the client
    is constructed from what that invocation resolves.  With resolution as
    the spec describes it (the explicit token takes precedence), the
    client's credentials are that token, whatever the credentials provider
    would yield. *)
Theorem explicit_token_reaches_the_client :
  (forall (I P O : Type)
          (parseRepoUrl : string -> I -> Error + Parsed.t)
          (getOctokitOptions : OctokitArgs.t I P -> Error + O)
          (remote : O -> nat -> Dispatch.t -> Response)
          (integrations : I) (githubCredentialsProvider : option P)
          (fuel : nat) (ctx : Ctx) (parsed : Parsed.t) (t : string),
     Input.token (input ctx) = Some t ->
     parseRepoUrl (Input.repoUrl (input ctx)) integrations = inr parsed ->
     truthy (Parsed.owner parsed) = true ->
     optionsRequests
       (trace (handler parseRepoUrl getOctokitOptions remote integrations
                 githubCredentialsProvider fuel ctx))
       = [ {| OctokitArgs.integrations := integrations;
              OctokitArgs.repoUrl := Input.repoUrl (input ctx);
              OctokitArgs.credentialsProvider := githubCredentialsProvider;
              OctokitArgs.token := Some t |} ]
     /\ forall opts,
          getOctokitOptions
            {| OctokitArgs.integrations := integrations;
               OctokitArgs.repoUrl := Input.repoUrl (input ctx);
               OctokitArgs.credentialsProvider := githubCredentialsProvider;
               OctokitArgs.token := Some t |} = inr opts ->
          clientsCreated
            (trace (handler parseRepoUrl getOctokitOptions remote integrations
                      githubCredentialsProvider fuel ctx))
            = [ {| octokitOptions := opts; throttle_of := throttle |} ])
  /\ (forall (I P : Type)
             (parseRepoUrl : string -> I -> Error + Parsed.t)
             (fromProvider : I -> option P -> string -> Error + string)
             (remote : Credentials -> nat -> Dispatch.t -> Response)
             (integrations : I) (githubCredentialsProvider : option P)
             (fuel : nat) (ctx : Ctx) (parsed : Parsed.t) (t : string),
        Input.token (input ctx) = Some t ->
        parseRepoUrl (Input.repoUrl (input ctx)) integrations = inr parsed ->
        truthy (Parsed.owner parsed) = true ->
        clientsCreated
          (trace (handler parseRepoUrl (getOctokitOptions_spec fromProvider)
                    remote integrations githubCredentialsProvider fuel ctx))
          = [ {| octokitOptions := {| auth := t |};
                 throttle_of := throttle |} ]).
Proof.
  split.
  - intros I P O parseRepoUrl getOctokitOptions remote integrations
      githubCredentialsProvider fuel ctx parsed t Ht Hp Ho.
    assert (Ha : octokitArgs integrations githubCredentialsProvider (input ctx)
                 = {| OctokitArgs.integrations := integrations;
                      OctokitArgs.repoUrl := Input.repoUrl (input ctx);
                      OctokitArgs.credentialsProvider := githubCredentialsProvider;
                      OctokitArgs.token := Some t |}).
    { unfold octokitArgs. rewrite Ht. reflexivity. }
    rewrite <- Ha. split.
    + exact (optionsRequests_owner_ok _ _ _ _ _ _ _ _ fuel ctx parsed Hp Ho).
    + intros opts Hg.
      exact (clientsCreated_dispatches _ _ _ _ _ _ _ _ fuel ctx parsed opts
               Hp Ho Hg).
  - intros I P parseRepoUrl fromProvider remote integrations
      githubCredentialsProvider fuel ctx parsed t Ht Hp Ho.
    apply (clientsCreated_dispatches _ _ _ _ _ _ _ _ fuel ctx parsed _ Hp Ho).
    unfold getOctokitOptions_spec, octokitArgs. cbn [OctokitArgs.token].
    rewrite Ht. reflexivity.
Qed.

(* ================================================================== *)
(** * The properties at the scenarios *)

Lemma owner_missing_rejected_without_network_witness :
  parseRepoUrl_standin "github.com?repo=demo" tt = inr Scenario.ownerless
  /\ outcome (Scenario.runWith Scenario.accepting 1 Scenario.ownerlessCtx)
     = Threw (InputError "Invalid repository owner provided in repoUrl")
  /\ clientActivity
       (trace (Scenario.runWith Scenario.accepting 1 Scenario.ownerlessCtx)) = [].
Proof.
  split; [reflexivity|].
  destruct (owner_missing_rejected_without_network unit unit Credentials
              parseRepoUrl_standin Scenario.resolve Scenario.accepting tt None
              1 Scenario.ownerlessCtx Scenario.ownerless eq_refl eq_refl)
    as (Hout & Hact & _).
  split; [exact Hout | exact Hact].
Defined.

Lemma owner_missing_still_logs_dispatching_witness :
  logs (trace (Scenario.runWith Scenario.unknownWorkflow 3 Scenario.ownerlessCtx))
  = ["Dispatching workflow ci.yml for repo github.com?repo=demo on main"].
Proof.
  exact (proj1 (proj2
    (owner_missing_still_logs_dispatching unit unit Credentials
       parseRepoUrl_standin Scenario.resolve Scenario.unknownWorkflow tt None
       3 Scenario.ownerlessCtx Scenario.ownerless eq_refl eq_refl))).
Defined.

Lemma dispatch_call_receives_input_witness :
  dispatchCalls (trace (Scenario.runWith Scenario.accepting 1 Scenario.tokenCtx))
  = [ {| Dispatch.owner := Some "acme";
         Dispatch.repo := Some "demo";
         Dispatch.workflow_id := "ci.yml";
         Dispatch.ref := "main";
         Dispatch.inputs := Some [("environment", "staging")] |} ].
Proof.
  exact (dispatch_call_receives_input unit unit Credentials
           parseRepoUrl_standin Scenario.resolve Scenario.accepting tt None
           1 Scenario.tokenCtx Scenario.acmeDemo eq_refl eq_refl).
Defined.

Lemma repo_is_not_validated_witness :
  parseRepoUrl_standin "github.com?owner=acme" tt = inr Scenario.repoless
  /\ (exists p,
        dispatchCalls
          (trace (Scenario.runWith Scenario.unknownWorkflow 1 Scenario.repolessCtx))
          = [p]
        /\ Dispatch.repo p = None)
  /\ forall message,
       outcome (Scenario.runWith Scenario.unknownWorkflow 1 Scenario.repolessCtx)
       <> Threw (InputError message).
Proof.
  split; [reflexivity|].
  destruct (proj2 (repo_is_not_validated unit unit Credentials
              parseRepoUrl_standin Scenario.resolve Scenario.unknownWorkflow
              tt None 1 Scenario.repolessCtx Scenario.repoless
              eq_refl eq_refl eq_refl))
    as ((p & Hcalls & Hrepo & _) & Hout).
  split; [exists p; split; [exact Hcalls | exact Hrepo] | exact Hout].
Defined.

Lemma throttle_permits_four_retries_witness :
  outcome (Scenario.runWith Scenario.limitedFourTimes 5 Scenario.demoCtx)
    = Returned tt
  /\ exists e,
       outcome (Scenario.runWith Scenario.alwaysLimited 5 Scenario.demoCtx)
         = Threw (RequestError e).
Proof.
  split.
  - refine (proj1 (proj1 (proj2 (proj2
      (throttle_permits_four_retries unit unit Credentials
         parseRepoUrl_standin Scenario.resolve Scenario.limitedFourTimes
         tt None))
      5%nat Scenario.demoCtx Scenario.acmeDemo {| auth := "ghs_from_provider" |}
      (le_n 5) eq_refl eq_refl eq_refl _) eq_refl)).
    intros k Hk.
    destruct k as [|[|[|[|[|k]]]]]; try reflexivity; lia.
  - destruct (proj2 (proj2 (proj2
      (throttle_permits_four_retries unit unit Credentials
         parseRepoUrl_standin Scenario.resolve Scenario.alwaysLimited
         tt None))
      5%nat Scenario.demoCtx Scenario.acmeDemo {| auth := "ghs_from_provider" |}
      (le_n 5) eq_refl eq_refl eq_refl (fun _ _ => eq_refl)) eq_refl)
      as (e & _ & Hout & _).
    exists e. exact Hout.
Defined.

Lemma dispatch_error_propagates_unmodified_witness :
  outcome (Scenario.runWith Scenario.unknownWorkflow 1 Scenario.demoCtx)
    = Threw (RequestError (HttpError 404 "Not Found"))
  /\ logs (trace (Scenario.runWith Scenario.unknownWorkflow 1 Scenario.demoCtx))
    = ["Dispatching workflow ci.yml for repo github.com?repo=demo&owner=acme on main"].
Proof.
  destruct (dispatch_error_propagates_unmodified unit unit Credentials
              parseRepoUrl_standin Scenario.resolve Scenario.unknownWorkflow
              tt None 1 Scenario.demoCtx Scenario.acmeDemo
              {| auth := "ghs_from_provider" |}
              (RequestError (HttpError 404 "Not Found"))
              eq_refl eq_refl eq_refl eq_refl)
    as (Hout & _ & Hlogs & _).
  split; [exact Hout | exact Hlogs].
Defined.


Lemma explicit_token_reaches_the_client_witness :
  Scenario.providerToken tt None "github.com?repo=demo&owner=acme"
    = inr "ghs_from_provider"
  /\ clientsCreated
       (trace (Scenario.runWith Scenario.accepting 1 Scenario.tokenCtx))
     = [ {| octokitOptions := {| auth := "ghp_explicit" |};
            throttle_of := throttle |} ].
Proof.
  split; [reflexivity|].
  exact (proj2 explicit_token_reaches_the_client unit unit
           parseRepoUrl_standin Scenario.providerToken Scenario.accepting
           tt None 1%nat Scenario.tokenCtx Scenario.acmeDemo "ghp_explicit"
           eq_refl eq_refl eq_refl).
Defined.

Lemma secondary_limit_falls_back_to_five_seconds_witness :
  exists rest,
    trace (attempts (ScmIntegrations:=unit) (GithubCredentialsProvider:=unit)
             Scenario.limitedFourTimes 4
             {| octokitOptions := {| auth := "ghs_from_provider" |};
                throttle_of := throttle |}
             1 (dispatchParams Scenario.demoInput Scenario.acmeDemo))
      = HttpAttempt 1 :: Waited 5 :: rest.
Proof.
  eexists.
  exact (proj2 (proj2 (proj2
    (secondary_limit_falls_back_to_five_seconds unit unit Credentials
       parseRepoUrl_standin Scenario.resolve Scenario.limitedFourTimes tt None)))
    3%nat {| auth := "ghs_from_provider" |} 1%nat
    (dispatchParams Scenario.demoInput Scenario.acmeDemo) Scenario.secondaryError
    eq_refl (le_S _ _ (le_S _ _ (le_n 2)))).
Defined.

Lemma retry_predicates_depend_on_retry_count_only_witness :
  Throttle.onRateLimit throttle 1
    {| method := "POST"; url := "/dispatches";
       request := {| retryCount := 3 |} |}
  = Throttle.onSecondaryRateLimit throttle 60
      {| method := "GET"; url := "/rate_limit";
         request := {| retryCount := 3 |} |}.
Proof.
  exact (proj2 (proj2
    (retry_predicates_depend_on_retry_count_only 1 60
       {| method := "POST"; url := "/dispatches";
          request := {| retryCount := 3 |} |}
       {| method := "GET"; url := "/rate_limit";
          request := {| retryCount := 3 |} |}
       eq_refl))).
Defined.

(* ================================================================== *)
(** * Further properties of the handler *)

Section MoreTraceFacts.

Variables I P O : Type.
Implicit Types tr : list (Event I P O).

Lemma waits_app tr tr' : waits (tr ++ tr') = waits tr ++ waits tr'.
Proof.
  induction tr as [|ev tr IH]; simpl; [reflexivity|].
  destruct ev; simpl; rewrite IH; reflexivity.
Qed.

Lemma clientActivity_app tr tr' :
  clientActivity (tr ++ tr') = clientActivity tr ++ clientActivity tr'.
Proof. unfold clientActivity. apply filter_app. Qed.

(** The request loop logs nothing, so all of it is client activity. *)
Lemma attempt_events_clientActivity tr :
  forallb isAttemptEvent tr = true -> clientActivity tr = tr.
Proof.
  induction tr as [|ev tr IH]; simpl; [reflexivity|].
  destruct ev; simpl; intros H; try discriminate H;
    (rewrite (IH H) || (fold (clientActivity tr); rewrite (IH H)));
    reflexivity.
Qed.

End MoreTraceFacts.

Section MorePolicy.

Variables ScmIntegrations GithubCredentialsProvider OctokitOptions : Type.
Variable remote : OctokitOptions -> nat -> Dispatch.t -> Response.

Local Abbreviation loop :=
  (@attempts ScmIntegrations GithubCredentialsProvider OctokitOptions remote).
Local Abbreviation clientOf opts :=
  {| octokitOptions := opts; throttle_of := throttle |}.
Local Abbreviation policy_lemma L :=
  (L ScmIntegrations GithubCredentialsProvider OctokitOptions remote).

(** In the modelled loop, under the handler's policy, the attempts of a
    request are numbered consecutively and stop at the fifth; each retry is
    preceded by one wait. *)
Lemma loop_attempts_numbered fuel : forall opts n params,
  (n <= 4)%nat ->
  exists k,
    httpAttempts (trace (loop fuel (clientOf opts) n params)) = seq n k
    /\ (n + k <= 5)%nat
    /\ (length (waits (trace (loop fuel (clientOf opts) n params))) <= 4 - n)%nat.
Proof.
  induction fuel as [|fuel IH]; intros opts n params Hn.
  { exists 0%nat. cbn. repeat split; lia. }
  destruct (remote opts (S n) params) as [|w e|s e|e] eqn:R.
  - rewrite (policy_lemma loop_accept fuel opts n params R).
    exists 1%nat. cbn. repeat split; lia.
  - destruct (Nat.lt_ge_cases n 4) as [Hlt|Hge].
    + rewrite (policy_lemma loop_primary_retry fuel opts n params w e R Hlt).
      destruct (IH opts (S n) params Hlt) as (k & Hk & Hb & Hw).
      exists (S k). cbn [trace fst httpAttempts waits seq length].
      rewrite Hk. repeat split; lia.
    + destruct (policy_lemma loop_give_up fuel opts n params) as [e' [_ L]];
        [rewrite R; reflexivity | exact Hge |].
      rewrite L. exists 1%nat. cbn. repeat split; lia.
  - destruct (Nat.lt_ge_cases n 4) as [Hlt|Hge].
    + rewrite (policy_lemma loop_secondary_retry fuel opts n params s e R Hlt).
      destruct (IH opts (S n) params Hlt) as (k & Hk & Hb & Hw).
      exists (S k). cbn [trace fst httpAttempts waits seq length].
      rewrite Hk. repeat split; lia.
    + destruct (policy_lemma loop_give_up fuel opts n params) as [e' [_ L]];
        [rewrite R; reflexivity | exact Hge |].
      rewrite L. exists 1%nat. cbn. repeat split; lia.
  - rewrite (policy_lemma loop_failed fuel opts n params e R).
    exists 1%nat. cbn. repeat split; lia.
Qed.

End MorePolicy.

Section MoreHandler.

Variables ScmIntegrations GithubCredentialsProvider OctokitOptions : Type.
Variable parseRepoUrl : string -> ScmIntegrations -> Error + Parsed.t.
Variable getOctokitOptions :
  OctokitArgs.t ScmIntegrations GithubCredentialsProvider -> Error + OctokitOptions.
Variable remote : OctokitOptions -> nat -> Dispatch.t -> Response.
Variable integrations : ScmIntegrations.
Variable githubCredentialsProvider : option GithubCredentialsProvider.

Local Abbreviation action :=
  (handler parseRepoUrl getOctokitOptions remote integrations
     githubCredentialsProvider).
Local Abbreviation argsOf i :=
  (octokitArgs integrations githubCredentialsProvider i).
Local Abbreviation loop :=
  (@attempts ScmIntegrations GithubCredentialsProvider OctokitOptions remote).
Local Abbreviation clientOf opts :=
  {| octokitOptions := opts; throttle_of := throttle |}.
Local Abbreviation parse ctx :=
  (parseRepoUrl (Input.repoUrl (input ctx)) integrations).
Local Abbreviation run_lemma L :=
  (L ScmIntegrations GithubCredentialsProvider OctokitOptions parseRepoUrl
     getOctokitOptions remote integrations githubCredentialsProvider).

(** Splits a goal about a run into the four ways the handler can go: the
    location does not parse, the owner is missing, the options do not
    resolve, or the dispatch call is reached. *)
Local Ltac run_cases fuel ctx :=
  let e := fresh "e" in
  let parsed := fresh "parsed" in
  let opts := fresh "opts" in
  let Hp := fresh "Hp" in
  let Ho := fresh "Ho" in
  let Hg := fresh "Hg" in
  destruct (parse ctx) as [e|parsed] eqn:Hp;
  [ rewrite ?(run_lemma handler_parse_fail fuel ctx e Hp)
  | destruct (truthy (Parsed.owner parsed)) eqn:Ho;
    [ destruct (getOctokitOptions (argsOf (input ctx))) as [e|opts] eqn:Hg;
      [ rewrite ?(run_lemma handler_options_fail fuel ctx parsed e Hp Ho Hg)
      | rewrite ?(run_lemma handler_dispatches fuel ctx parsed opts Hp Ho Hg) ]
    | rewrite ?(run_lemma handler_owner_missing fuel ctx parsed Hp Ho) ] ].

(** What any run logs. *)
Lemma logs_of_run fuel ctx :
  logs (trace (action fuel ctx))
  = dispatchingMessage (input ctx)
      :: if returned (outcome (action fuel ctx))
         then [dispatchedMessage (input ctx)] else [].
Proof.
  run_cases fuel ctx; try reflexivity.
  name_loop L Hev. destruct L as [tr o].
  cbn [trace outcome fst snd logs] in *.
  rewrite logs_app, (attempt_events_logs _ _ _ _ Hev).
  destruct o; reflexivity.
Qed.

(** X1. When [parseRepoUrl] throws, the handler ends in exactly that error
    after the one "Dispatching" log entry: no options are resolved, no
    client is built and nothing is sent. *)
Theorem unparsable_location_propagates :
  forall fuel ctx e,
    parse ctx = inl e ->
    outcome (action fuel ctx) = Threw e
    /\ logs (trace (action fuel ctx)) = [dispatchingMessage (input ctx)]
    /\ clientActivity (trace (action fuel ctx)) = [].
Proof.
  intros fuel ctx e Hp.
  rewrite (run_lemma handler_parse_fail fuel ctx e Hp). repeat split.
Qed.

(** X2. When [getOctokitOptions] throws, the handler ends in exactly that
    error: the resolution was requested once, and no client is constructed,
    the dispatch endpoint is not called, no HTTP attempt is made and only
    the "Dispatching" entry is logged. *)
Theorem unresolved_options_stop_the_run :
  forall fuel ctx parsed e,
    parse ctx = inr parsed ->
    truthy (Parsed.owner parsed) = true ->
    getOctokitOptions (argsOf (input ctx)) = inl e ->
    outcome (action fuel ctx) = Threw e
    /\ clientActivity (trace (action fuel ctx))
       = [OptionsRequested (argsOf (input ctx))]
    /\ clientsCreated (trace (action fuel ctx)) = []
    /\ dispatchCalls (trace (action fuel ctx)) = []
    /\ httpAttempts (trace (action fuel ctx)) = []
    /\ logs (trace (action fuel ctx)) = [dispatchingMessage (input ctx)].
Proof.
  intros fuel ctx parsed e Hp Ho Hg.
  rewrite (run_lemma handler_options_fail fuel ctx parsed e Hp Ho Hg).
  repeat split.
Qed.

(** X3. In every run, whatever the collaborators do, the log starts with
    the "Dispatching" entry, and the "dispatched successfully" entry is
    logged if and only if the handler returns. *)
Theorem success_logged_iff_returned :
  forall fuel ctx,
    (exists rest,
       logs (trace (action fuel ctx)) = dispatchingMessage (input ctx) :: rest)
    /\ (In (dispatchedMessage (input ctx)) (logs (trace (action fuel ctx)))
        <-> outcome (action fuel ctx) = Returned tt).
Proof.
  intros fuel ctx. rewrite logs_of_run. split; [eexists; reflexivity|].
  destruct (outcome (action fuel ctx)) as [[]|e|]; cbn [returned]; split.
  - reflexivity.
  - intros _. right; left; reflexivity.
  - intros [E|[]]. destruct (messages_differ _ E).
  - discriminate.
  - intros [E|[]]. destruct (messages_differ _ E).
  - discriminate.
Qed.

(** X4. In every run the collaborators are used at most once each and in
    one order: nothing at all, or the options request alone (it threw), or
    the options request, the client built from what it resolved, the one
    dispatch call, and then only attempts and waits. *)
Theorem client_activity_in_order :
  forall fuel ctx,
    clientActivity (trace (action fuel ctx)) = []
    \/ (clientActivity (trace (action fuel ctx))
          = [OptionsRequested (argsOf (input ctx))]
        /\ exists e, getOctokitOptions (argsOf (input ctx)) = inl e)
    \/ exists parsed opts requestEvents,
         parse ctx = inr parsed
         /\ getOctokitOptions (argsOf (input ctx)) = inr opts
         /\ forallb isAttemptEvent requestEvents = true
         /\ clientActivity (trace (action fuel ctx))
            = OptionsRequested (argsOf (input ctx))
                :: ClientCreated (clientOf opts)
                :: DispatchCalled (dispatchParams (input ctx) parsed)
                :: requestEvents.
Proof.
  intros fuel ctx. run_cases fuel ctx.
  - left; reflexivity.
  - right; left. split; [reflexivity|]. exists e; reflexivity.
  - right; right. name_loop L Hev. destruct L as [tr o].
    exists parsed, opts, tr.
    cbn [trace outcome fst snd] in *.
    repeat (split; [assumption || reflexivity|]).
    unfold clientActivity at 1. cbn [filter isLog negb].
    fold (clientActivity
            (tr ++ match o with
                   | Returned _ => [LogInfo (dispatchedMessage (input ctx))]
                   | _ => []
                   end)).
    rewrite clientActivity_app, (attempt_events_clientActivity _ _ _ _ Hev).
    destruct o; cbn; rewrite app_nil_r; reflexivity.
  - left; reflexivity.
Qed.

(** X5. As far as rate limiting goes, the policy caps a run at five
    attempts: when the provider answers every attempt with success or with
    a rate-limit signal (primary or secondary), the handler makes at most
    five HTTP attempts, numbered 0, 1, 2, ... with no gap, and waits at most
    four times.  Failures of another kind are left out: whether the client
    retries those is not decided by this file. *)
Theorem at_most_five_attempts_when_only_rate_limited :
  forall fuel ctx,
    (forall opts k params e, remote opts k params <> Failed e) ->
    exists k,
      (k <= 5)%nat
      /\ httpAttempts (trace (action fuel ctx)) = seq 0 k
      /\ (length (waits (trace (action fuel ctx))) <= 4)%nat.
Proof.
  intros fuel ctx _. run_cases fuel ctx;
    try (exists 0%nat; cbn; repeat split; lia).
  destruct (loop_attempts_numbered ScmIntegrations GithubCredentialsProvider
              OctokitOptions remote fuel opts 0
              (dispatchParams (input ctx) parsed)) as (k & Hk & Hb & Hw);
    [lia|].
  name_loop L Hev. destruct L as [tr o].
  cbn [trace outcome fst snd httpAttempts waits] in *.
  exists k. rewrite httpAttempts_app, waits_app, Hk, length_app.
  destruct o; cbn [httpAttempts waits length]; rewrite ?app_nil_r;
    repeat split; lia.
Qed.

(** X8. The dispatch endpoint is never called with an empty or absent
    owner, in any run. *)
Theorem dispatch_owner_never_empty :
  forall fuel ctx,
    Forall (fun p => truthy (Dispatch.owner p) = true)
      (dispatchCalls (trace (action fuel ctx))).
Proof.
  intros fuel ctx. run_cases fuel ctx; try (cbn; apply Forall_nil).
  name_loop L Hev. destruct L as [tr o].
  cbn [trace outcome fst snd dispatchCalls] in *.
  rewrite dispatchCalls_app, (attempt_events_dispatchCalls _ _ _ _ Hev).
  destruct o; cbn; repeat constructor; exact Ho.
Qed.

End MoreHandler.

(** X7. What is logged depends on the input only through workflowId,
    repoUrl and branchOrTagName: for two invocations that agree on these
    three fields, whatever their tokens, workflow inputs and collaborators,
    every entry one logs is one of the two messages of the other, and the
    logs are equal when both return or both do not. *)
Theorem logs_ignore_token_and_inputs :
  forall (I1 P1 O1 I2 P2 O2 : Type)
         (parse1 : string -> I1 -> Error + Parsed.t)
         (resolve1 : OctokitArgs.t I1 P1 -> Error + O1)
         (remote1 : O1 -> nat -> Dispatch.t -> Response)
         (integrations1 : I1) (provider1 : option P1)
         (parse2 : string -> I2 -> Error + Parsed.t)
         (resolve2 : OctokitArgs.t I2 P2 -> Error + O2)
         (remote2 : O2 -> nat -> Dispatch.t -> Response)
         (integrations2 : I2) (provider2 : option P2)
         (fuel1 fuel2 : nat) (ctx1 ctx2 : Ctx),
    Input.workflowId (input ctx1) = Input.workflowId (input ctx2) ->
    Input.repoUrl (input ctx1) = Input.repoUrl (input ctx2) ->
    Input.branchOrTagName (input ctx1) = Input.branchOrTagName (input ctx2) ->
    (forall m,
       In m (logs (trace (handler parse1 resolve1 remote1 integrations1
                            provider1 fuel1 ctx1))) ->
       m = dispatchingMessage (input ctx2) \/ m = dispatchedMessage (input ctx2))
    /\ (returned (outcome (handler parse1 resolve1 remote1 integrations1
                             provider1 fuel1 ctx1))
        = returned (outcome (handler parse2 resolve2 remote2 integrations2
                               provider2 fuel2 ctx2)) ->
        logs (trace (handler parse1 resolve1 remote1 integrations1 provider1
                       fuel1 ctx1))
        = logs (trace (handler parse2 resolve2 remote2 integrations2 provider2
                         fuel2 ctx2))).
Proof.
  intros I1 P1 O1 I2 P2 O2 parse1 resolve1 remote1 integrations1 provider1
    parse2 resolve2 remote2 integrations2 provider2 fuel1 fuel2 ctx1 ctx2
    Hw Hr Hb.
  assert (Hd : dispatchingMessage (input ctx1) = dispatchingMessage (input ctx2)).
  { unfold dispatchingMessage. rewrite Hw, Hr, Hb. reflexivity. }
  assert (Hs : dispatchedMessage (input ctx1) = dispatchedMessage (input ctx2)).
  { unfold dispatchedMessage. rewrite Hw. reflexivity. }
  rewrite !logs_of_run, Hd, Hs. split.
  - intros m [E|Hin]; [left; symmetry; exact E|].
    destruct (returned _); [|destruct Hin].
    destruct Hin as [E|[]]. right; symmetry; exact E.
  - intros ->. reflexivity.
Qed.

(** X9. An action created from [options] hands exactly those options on:
    in every invocation that passes the owner check, [getOctokitOptions] is
    called once, with options.integrations, options.githubCredentialsProvider
    and the input's repoUrl and token as they came (an absent token stays
    absent). *)
Theorem created_action_hands_its_options_on :
  forall (I P O : Type)
         (parseRepoUrl : string -> I -> Error + Parsed.t)
         (getOctokitOptions : OctokitArgs.t I P -> Error + O)
         (remote : O -> nat -> Dispatch.t -> Response)
         (options : Options.t I P)
         (fuel : nat) (ctx : Ctx) (parsed : Parsed.t),
    parseRepoUrl (Input.repoUrl (input ctx)) (Options.integrations options)
      = inr parsed ->
    truthy (Parsed.owner parsed) = true ->
    optionsRequests
      (trace (TemplateAction.handler _
                (createGithubActionsDispatchAction parseRepoUrl
                   getOctokitOptions remote options) fuel ctx))
    = [ {| OctokitArgs.integrations := Options.integrations options;
           OctokitArgs.repoUrl := Input.repoUrl (input ctx);
           OctokitArgs.credentialsProvider :=
             Options.githubCredentialsProvider options;
           OctokitArgs.token := Input.token (input ctx) |} ].
Proof.
  intros I P O parseRepoUrl getOctokitOptions remote options fuel ctx parsed
    Hp Ho.
  exact (optionsRequests_owner_ok _ _ _ _ _ _ _ _ fuel ctx parsed Hp Ho).
Qed.

(** ** These properties at the scenarios *)

Lemma unparsable_location_propagates_witness :
  outcome (handler Failing.parseOrThrow Scenario.resolve Scenario.accepting
             tt None 1 Failing.unparsableCtx)
    = Threw (InputError "Invalid repo URL passed to publisher")
  /\ logs (trace (handler Failing.parseOrThrow Scenario.resolve
                    Scenario.accepting tt None 1 Failing.unparsableCtx))
     = ["Dispatching workflow ci.yml for repo not a location on main"].
Proof.
  destruct (unparsable_location_propagates unit unit Credentials
              Failing.parseOrThrow Scenario.resolve Scenario.accepting tt None
              1 Failing.unparsableCtx
              (InputError "Invalid repo URL passed to publisher") eq_refl)
    as (Hout & Hlogs & _).
  split; [exact Hout | exact Hlogs].
Defined.

Lemma unresolved_options_stop_the_run_witness :
  outcome (handler parseRepoUrl_standin Failing.resolve Scenario.accepting
             tt None 1 Scenario.demoCtx)
    = Threw (InputError "No token available for host")
  /\ clientsCreated
       (trace (handler parseRepoUrl_standin Failing.resolve Scenario.accepting
                 tt None 1 Scenario.demoCtx)) = [].
Proof.
  destruct (unresolved_options_stop_the_run unit unit Credentials
              parseRepoUrl_standin Failing.resolve Scenario.accepting tt None
              1 Scenario.demoCtx Scenario.acmeDemo
              (InputError "No token available for host")
              eq_refl eq_refl eq_refl)
    as (Hout & _ & Hclients & _).
  split; [exact Hout | exact Hclients].
Defined.

Lemma logs_ignore_token_and_inputs_witness :
  logs (trace (Scenario.runWith Scenario.accepting 1 Scenario.tokenCtx))
  = logs (trace (Scenario.runWith Scenario.limitedFourTimes 5 Scenario.demoCtx)).
Proof.
  exact (proj2
    (logs_ignore_token_and_inputs unit unit Credentials unit unit Credentials
       parseRepoUrl_standin Scenario.resolve Scenario.accepting tt None
       parseRepoUrl_standin Scenario.resolve Scenario.limitedFourTimes tt None
       1%nat 5%nat Scenario.tokenCtx Scenario.demoCtx eq_refl eq_refl eq_refl)
    eq_refl).
Defined.

Lemma created_action_hands_its_options_on_witness :
  optionsRequests
    (trace (TemplateAction.handler _
              (createGithubActionsDispatchAction parseRepoUrl_standin
                 Scenario.resolve Scenario.accepting
                 {| Options.integrations := tt;
                    Options.githubCredentialsProvider := Some tt |})
              1 Scenario.demoCtx))
  = [ {| OctokitArgs.integrations := tt;
         OctokitArgs.repoUrl := "github.com?repo=demo&owner=acme";
         OctokitArgs.credentialsProvider := Some tt;
         OctokitArgs.token := None |} ].
Proof.
  exact (created_action_hands_its_options_on unit unit Credentials
           parseRepoUrl_standin Scenario.resolve Scenario.accepting
           {| Options.integrations := tt;
              Options.githubCredentialsProvider := Some tt |}
           1%nat Scenario.demoCtx Scenario.acmeDemo eq_refl eq_refl).
Defined.

Lemma at_most_five_attempts_when_only_rate_limited_witness :
  httpAttempts (trace (Scenario.runWith Scenario.alwaysLimited 9 Scenario.demoCtx))
    = seq 0 5
  /\ length (waits (trace (Scenario.runWith Scenario.alwaysLimited 9
                             Scenario.demoCtx))) = 4%nat.
Proof.
  destruct (at_most_five_attempts_when_only_rate_limited unit unit Credentials
              parseRepoUrl_standin Scenario.resolve Scenario.alwaysLimited
              tt None 9%nat Scenario.demoCtx
              (fun _ _ _ e H => eq_ind (RateLimited 1 Scenario.rateLimitError)
                 (fun r => match r with Failed _ => False | _ => True end)
                 I (Failed e) H))
    as (k & _ & _ & _).
  split; reflexivity.
Defined.

(** ** The claim about the repo as first stated *)

(** C9 as first stated has no exception for option resolution, and fails
    there: with a non-empty owner, an absent repo and a credentials provider
    that has no token, the handler ends in an InputError (the one
    [getOctokitOptions] threw) and the dispatch endpoint is not called. *)
Lemma repo_is_not_validated_counterexample :
  parseRepoUrl_standin (Input.repoUrl (input Scenario.repolessCtx)) tt
    = inr Scenario.repoless
  /\ truthy (Parsed.owner Scenario.repoless) = true
  /\ truthy (Parsed.repo Scenario.repoless) = false
  /\ outcome (handler parseRepoUrl_standin Failing.resolve Scenario.accepting
                tt None 1 Scenario.repolessCtx)
     = Threw (InputError "No token available for host")
  /\ dispatchCalls
       (trace (handler parseRepoUrl_standin Failing.resolve Scenario.accepting
                 tt None 1 Scenario.repolessCtx)) = []
  /\ ~ ((forall message,
           outcome (handler parseRepoUrl_standin Failing.resolve
                      Scenario.accepting tt None 1 Scenario.repolessCtx)
           <> Threw (InputError message))
        /\ exists p,
             In p (dispatchCalls
                     (trace (handler parseRepoUrl_standin Failing.resolve
                               Scenario.accepting tt None 1
                               Scenario.repolessCtx)))
             /\ Dispatch.repo p = Parsed.repo Scenario.repoless).
Proof.
  repeat (split; [reflexivity|]).
  intros [Hno _]. exact (Hno "No token available for host" eq_refl).
Qed.
